(** * Equations of motion of a 6-DOF fixed-wing aircraft

    Shallow embedding of the two code cells of
    [EOM Derivation/Equations of Motion.ipynb].  The notebook builds its
    equations with sympy over free symbols; a sympy expression in the symbols
    [u, v, w, p, q, r, ...] is read here as a function of real values for
    those symbols, and sympy's [Matrix] (only 3x1 columns and 3x3 matrices
    occur) as the fixed-size records below. *)

From Stdlib Require Import Reals Lra.

Local Open Scope R_scope.

(** ** Fixed-size linear algebra: what the notebook uses of sympy's [Matrix] *)

Module Linalg.

(** [Matrix([a, b, c])]: a 3x1 column. *)
Record Vec3 : Type := mkVec3 { c0 : R; c1 : R; c2 : R }.

(** [Matrix([[..], [..], [..]])]: a 3x3 matrix, given by its rows. *)
Record Mat3 : Type := mkMat3 { row0 : Vec3; row1 : Vec3; row2 : Vec3 }.

Definition vadd (a b : Vec3) : Vec3 :=
  mkVec3 (c0 a + c0 b) (c1 a + c1 b) (c2 a + c2 b).

Definition vsub (a b : Vec3) : Vec3 :=
  mkVec3 (c0 a - c0 b) (c1 a - c1 b) (c2 a - c2 b).

Definition vopp (a : Vec3) : Vec3 :=
  mkVec3 (- c0 a) (- c1 a) (- c2 a).

(** [k * a] for a scalar [k]. *)
Definition vscale (k : R) (a : Vec3) : Vec3 :=
  mkVec3 (k * c0 a) (k * c1 a) (k * c2 a).

Definition dot (a b : Vec3) : R :=
  c0 a * c0 b + c1 a * c1 b + c2 a * c2 b.

(** [a.cross(b)]. *)
Definition cross (a b : Vec3) : Vec3 :=
  mkVec3 (c1 a * c2 b - c2 a * c1 b)
         (c2 a * c0 b - c0 a * c2 b)
         (c0 a * c1 b - c1 a * c0 b).

Definition col0 (A : Mat3) : Vec3 := mkVec3 (c0 (row0 A)) (c0 (row1 A)) (c0 (row2 A)).
Definition col1 (A : Mat3) : Vec3 := mkVec3 (c1 (row0 A)) (c1 (row1 A)) (c1 (row2 A)).
Definition col2 (A : Mat3) : Vec3 := mkVec3 (c2 (row0 A)) (c2 (row1 A)) (c2 (row2 A)).

Definition transpose (A : Mat3) : Mat3 := mkMat3 (col0 A) (col1 A) (col2 A).

(** [A @ x] for a column [x]. *)
Definition mvmul (A : Mat3) (x : Vec3) : Vec3 :=
  mkVec3 (dot (row0 A) x) (dot (row1 A) x) (dot (row2 A) x).

(** [A @ B]: entry (i, j) is row i of [A] times column j of [B]. *)
Definition mmul (A B : Mat3) : Mat3 :=
  let rowmul (a : Vec3) := mkVec3 (dot a (col0 B)) (dot a (col1 B)) (dot a (col2 B)) in
  mkMat3 (rowmul (row0 A)) (rowmul (row1 A)) (rowmul (row2 A)).

Definition identity : Mat3 :=
  mkMat3 (mkVec3 1 0 0) (mkVec3 0 1 0) (mkVec3 0 0 1).

(** Determinant, by expansion along the first row. *)
Definition det (A : Mat3) : R :=
  dot (row0 A) (cross (row1 A) (row2 A)).

(** [A.inv()].  sympy returns the inverse of [A] over the field of the
    entries; it is written here by Cramer's rule, the rows of the adjugate
    divided by the determinant.  [inv_unique] below shows that no other
    matrix can be returned by a correct inversion when [det A <> 0]. *)
Definition inv (A : Mat3) : Mat3 :=
  let d := det A in
  let k0 := cross (row1 A) (row2 A) in
  let k1 := cross (row2 A) (row0 A) in
  let k2 := cross (row0 A) (row1 A) in
  mkMat3 (mkVec3 (c0 k0 / d) (c0 k1 / d) (c0 k2 / d))
         (mkVec3 (c1 k0 / d) (c1 k1 / d) (c1 k2 / d))
         (mkVec3 (c2 k0 / d) (c2 k1 / d) (c2 k2 / d)).

(** Squared Euclidean norm. *)
Definition norm2 (a : Vec3) : R := dot a a.

End Linalg.

Import Linalg.

(** ** First code cell: translational equations *)

Module Translational.

Definition vel_b (u v w : R) : Vec3 := mkVec3 u v w.
Definition omega_b (p q r : R) : Vec3 := mkVec3 p q r.
Definition F_a (F_x F_y F_z : R) : Vec3 := mkVec3 F_x F_y F_z.
Definition g_n (G : R) : Vec3 := mkVec3 0 0 G.

Definition Rx (phi : R) : Mat3 :=
  mkMat3 (mkVec3 1 0 0)
         (mkVec3 0 (cos phi) (sin phi))
         (mkVec3 0 (- sin phi) (cos phi)).

Definition Ry (theta : R) : Mat3 :=
  mkMat3 (mkVec3 (cos theta) 0 (- sin theta))
         (mkVec3 0 1 0)
         (mkVec3 (sin theta) 0 (cos theta)).

Definition Rz (psi : R) : Mat3 :=
  mkMat3 (mkVec3 (cos psi) (sin psi) 0)
         (mkVec3 (- sin psi) (cos psi) 0)
         (mkVec3 0 0 1).

(** [C_bn = Rx @ Ry @ Rz]; [@] associates to the left. *)
Definition C_bn (phi theta psi : R) : Mat3 :=
  mmul (mmul (Rx phi) (Ry theta)) (Rz psi).

(** [acc_cm = 1/m*F_a + C_bn @ g_n - (omega_b.cross(vel_b))]. *)
Definition acc_cm (u v w p q r G psi theta phi F_x F_y F_z m : R) : Vec3 :=
  vsub (vadd (vscale (1 / m) (F_a F_x F_y F_z))
             (mvmul (C_bn phi theta psi) (g_n G)))
       (cross (omega_b p q r) (vel_b u v w)).

(** The matrix the notebook's derivation writes out for [C_bn]. *)
Definition C_bn_expanded (phi theta psi : R) : Mat3 :=
  mkMat3
    (mkVec3 (cos theta * cos psi) (cos theta * sin psi) (- sin theta))
    (mkVec3 (- cos phi * sin psi + sin phi * sin theta * cos psi)
            (cos phi * cos psi + sin phi * sin theta * sin psi)
            (sin phi * cos theta))
    (mkVec3 (sin phi * sin psi + cos phi * sin theta * cos psi)
            (- sin phi * cos psi + cos phi * sin theta * sin psi)
            (cos phi * cos theta)).

(** The value the notebook records as the output of the cell. *)
Definition acc_cm_out (u v w p q r G psi theta phi F_x F_y F_z m : R) : Vec3 :=
  mkVec3 (F_x / m - G * sin theta - q * w + r * v)
         (F_y / m + G * sin phi * cos theta + p * w - r * u)
         (F_z / m + G * cos phi * cos theta - p * v + q * u).

End Translational.

Import Translational.

(** ** Second code cell: rotational equations *)

Module Rotational.

Definition M_AT (L M N : R) : Vec3 := mkVec3 L M N.

Definition J_b (J_x J_y J_z J_xz : R) : Mat3 :=
  mkMat3 (mkVec3 J_x 0 J_xz)
         (mkVec3 0 J_y 0)
         (mkVec3 J_xz 0 J_z).

(** [ang_acc_cm = (J_b.inv() @ (M_AT - omega_b.cross(J_b @ omega_b)))];
    [omega_b] is the column of the first cell. *)
Definition ang_acc_cm (p q r J_x J_y J_z J_xz L M N : R) : Vec3 :=
  let J := J_b J_x J_y J_z J_xz in
  mvmul (inv J)
        (vsub (M_AT L M N) (cross (omega_b p q r) (mvmul J (omega_b p q r)))).

(** The value the notebook records as the output of the cell. *)
Definition ang_acc_cm_out (p q r J_x J_y J_z J_xz L M N : R) : Vec3 :=
  mkVec3
    (- J_xz * (- J_y * p * q + N + q * (J_x * p + J_xz * r)) / (J_x * J_z - J_xz ^ 2)
     + J_z * (J_y * q * r + L - q * (J_xz * p + J_z * r)) / (J_x * J_z - J_xz ^ 2))
    ((M + p * (J_xz * p + J_z * r) - r * (J_x * p + J_xz * r)) / J_y)
    (J_x * (- J_y * p * q + N + q * (J_x * p + J_xz * r)) / (J_x * J_z - J_xz ^ 2)
     - J_xz * (J_y * q * r + L - q * (J_xz * p + J_z * r)) / (J_x * J_z - J_xz ^ 2)).

(** The result the notebook's derivation, in the text below the cell, states
    for [ang_acc_cm]; the product [p q r] in its last entry is the
    notebook's. *)
Definition ang_acc_cm_derived (p q r J_x J_y J_z J_xz L M N : R) : Vec3 :=
  mkVec3
    ((J_xz * (J_x - J_y + J_z) * p * q - (J_z * (J_z - J_y) + J_xz ^ 2) * q * r
      + J_z * L + J_xz * N) / (J_x * J_z - J_xz ^ 2))
    (((J_z - J_x) * r * p - J_xz * (p ^ 2 - r ^ 2) + M) / J_y)
    ((- J_xz * (J_x - J_y + J_z) * q * r
      + (J_x * (J_x - J_y) + J_xz ^ 2) * p * q * r
      + J_xz * L + J_x * N) / (J_x * J_z - J_xz ^ 2)).

End Rotational.

Import Rotational.

(** ** Running a cell on numbers: finite value, error, or neither

    Neither cell contains a [raise], an [assert] or a branch on its inputs,
    and the notebook declares no error type: the error names below are those
    of the specification's taxonomy.  The one way a cell fails to produce a
    finite column is a division by zero.  In the first cell [1/m] at
    [m = 0] is sympy's [zoo], and the entries come out [zoo] or [nan].  In
    the second cell [J_b.inv()] of a singular matrix raises sympy's
    [NonInvertibleMatrixError] (and the stored symbolic output, evaluated
    there, has [zoo] or [nan] entries).  Both are recorded as [NotFinite]:
    no finite column, and none of the specification's errors either. *)

Module Engine.





End Engine.

Import Engine.

(** ** The closed forms of the specification

    These follow the specification's text, to be compared with the cells. *)

Module Closed.

(** Section 4.1: the three-element gravity projection. *)
Definition gravity_projection (G phi theta : R) : Vec3 :=
  mkVec3 (- G * sin theta) (G * sin phi * cos theta) (G * cos phi * cos theta).

(** Section 4.3: the denominator of the inverted inertia tensor. *)
Definition Delta (J_x J_z J_xz : R) : R := J_x * J_z - J_xz ^ 2.

(** Section 4.3: the closed form of the rotational derivative. *)
Definition omega_dot_closed (p q r J_x J_y J_z J_xz L M N : R) : Vec3 :=
  mkVec3
    ((J_xz * (J_x - J_y + J_z) * p * q - (J_z * (J_z - J_y) + J_xz ^ 2) * q * r
      + J_z * L + J_xz * N) / Delta J_x J_z J_xz)
    (((J_z - J_x) * r * p - J_xz * (p ^ 2 - r ^ 2) + M) / J_y)
    ((- J_xz * (J_x - J_y + J_z) * q * r + (J_x * (J_x - J_y) + J_xz ^ 2) * p * q
      + J_xz * L + J_x * N) / Delta J_x J_z J_xz).

(** Section 8: the decoupled classical Euler equations. *)
Definition euler_decoupled (p q r J_x J_y J_z L M N : R) : Vec3 :=
  mkVec3 (((J_y - J_z) * q * r + L) / J_x)
         (((J_z - J_x) * r * p + M) / J_y)
         (((J_x - J_y) * p * q + N) / J_z).

(** A proper rotation: orthogonal, of determinant one. *)
Definition proper_rotation (A : Mat3) : Prop :=
  mmul A (transpose A) = identity /\ det A = 1.

(** The right-handed rotation of a vector by an angle about a coordinate
    axis.  The aerospace convention's elementary rotation is the change of
    coordinates into the frame so rotated, which is the transpose. *)
Definition turn_x (a : R) : Mat3 :=
  mkMat3 (mkVec3 1 0 0) (mkVec3 0 (cos a) (- sin a)) (mkVec3 0 (sin a) (cos a)).

Definition turn_y (a : R) : Mat3 :=
  mkMat3 (mkVec3 (cos a) 0 (sin a)) (mkVec3 0 1 0) (mkVec3 (- sin a) 0 (cos a)).

Definition turn_z (a : R) : Mat3 :=
  mkMat3 (mkVec3 (cos a) (- sin a) 0) (mkVec3 (sin a) (cos a) 0) (mkVec3 0 0 1).

End Closed.

Import Closed.

(** ** Proof support *)

(** Unfolds the linear algebra down to arithmetic on the entries. *)
Ltac unfold_linalg :=
  unfold inv, det, mmul, mvmul, transpose, col0, col1, col2, norm2,
    cross, dot, vscale, vopp, vsub, vadd, identity in *;
  cbn [c0 c1 c2 row0 row1 row2] in *.

Ltac unfold_cells :=
  unfold acc_cm, acc_cm_out, ang_acc_cm, ang_acc_cm_out, C_bn, C_bn_expanded,
    Rx, Ry, Rz,
    g_n, F_a, omega_b, vel_b, J_b, M_AT in *.

Ltac unfold_closed :=
  unfold gravity_projection, omega_dot_closed, euler_decoupled, Delta,
    proper_rotation, turn_x, turn_y, turn_z in *.

Ltac entries := unfold_cells; unfold_closed; unfold_linalg.

(** Splits an equation between columns or matrices into its entries. *)
Ltac by_entry :=
  repeat match goal with
         | |- mkMat3 _ _ _ = mkMat3 _ _ _ => f_equal
         | |- mkVec3 _ _ _ = mkVec3 _ _ _ => f_equal
         end.

(** Closes a side condition [b <> 0] from a hypothesis [a <> 0] where [a]
    and [b] are the same polynomial. *)
Ltac nonzero :=
  repeat split;
  match goal with
  | H : ?a <> 0 |- ?b <> 0 => exact H
  | H : ?a <> 0 |- ?b <> 0 => replace b with a by ring; exact H
  end.

(** *** Matrices *)

Lemma mmul_assoc (A B C : Mat3) : mmul (mmul A B) C = mmul A (mmul B C).
Proof.
  destruct A as [[? ? ?] [? ? ?] [? ? ?]], B as [[? ? ?] [? ? ?] [? ? ?]],
    C as [[? ? ?] [? ? ?] [? ? ?]].
  unfold_linalg. by_entry; ring.
Qed.

Lemma mmul_identity_l (A : Mat3) : mmul identity A = A.
Proof.
  destruct A as [[? ? ?] [? ? ?] [? ? ?]].
  unfold_linalg. by_entry; ring.
Qed.

Lemma mmul_identity_r (A : Mat3) : mmul A identity = A.
Proof.
  destruct A as [[? ? ?] [? ? ?] [? ? ?]].
  unfold_linalg. by_entry; ring.
Qed.

Lemma inv_l (A : Mat3) : det A <> 0 -> mmul (inv A) A = identity.
Proof.
  destruct A as [[? ? ?] [? ? ?] [? ? ?]].
  unfold_linalg. intros Hd. by_entry; field; exact Hd.
Qed.

Lemma inv_r (A : Mat3) : det A <> 0 -> mmul A (inv A) = identity.
Proof.
  destruct A as [[? ? ?] [? ? ?] [? ? ?]].
  unfold_linalg. intros Hd. by_entry; field; exact Hd.
Qed.

(** Whatever method inverts [A], it can only return [inv A]. *)
Lemma inv_unique (A B : Mat3) :
  det A <> 0 -> mmul A B = identity -> B = inv A.
Proof.
  intros Hd HAB.
  rewrite <- (mmul_identity_l B), <- (inv_l A Hd), mmul_assoc, HAB.
  apply mmul_identity_r.
Qed.

(** *** The recorded outputs are the values of the cells *)

Lemma acc_cm_recorded (u v w p q r G psi theta phi F_x F_y F_z m : R) :
  acc_cm u v w p q r G psi theta phi F_x F_y F_z m
  = acc_cm_out u v w p q r G psi theta phi F_x F_y F_z m.
Proof.
  entries. unfold Rdiv. by_entry; ring.
Qed.

Lemma det_J_b (J_x J_y J_z J_xz : R) :
  det (J_b J_x J_y J_z J_xz) = J_y * Delta J_x J_z J_xz.
Proof.
  entries. ring.
Qed.

Lemma det_J_b_nonzero (J_x J_y J_z J_xz : R) :
  J_y <> 0 -> Delta J_x J_z J_xz <> 0 -> det (J_b J_x J_y J_z J_xz) <> 0.
Proof.
  intros Hy Hd. rewrite det_J_b. apply Rmult_integral_contrapositive_currified; assumption.
Qed.

(** The inverse of the inertia tensor, entry by entry. *)
Lemma inv_J_b (J_x J_y J_z J_xz : R) :
  J_y <> 0 -> Delta J_x J_z J_xz <> 0 ->
  inv (J_b J_x J_y J_z J_xz)
  = mkMat3 (mkVec3 (J_z / Delta J_x J_z J_xz) 0 (- J_xz / Delta J_x J_z J_xz))
           (mkVec3 0 (1 / J_y) 0)
           (mkVec3 (- J_xz / Delta J_x J_z J_xz) 0 (J_x / Delta J_x J_z J_xz)).
Proof.
  intros Hy Hd.
  pose proof (det_J_b_nonzero J_x J_y J_z J_xz Hy Hd) as Hdet.
  entries. by_entry; field; nonzero.
Qed.

Lemma ang_acc_cm_recorded (p q r J_x J_y J_z J_xz L M N : R) :
  J_y <> 0 -> Delta J_x J_z J_xz <> 0 ->
  ang_acc_cm p q r J_x J_y J_z J_xz L M N
  = ang_acc_cm_out p q r J_x J_y J_z J_xz L M N.
Proof.
  intros Hy Hd.
  pose proof (det_J_b_nonzero J_x J_y J_z J_xz Hy Hd) as Hdet.
  entries. by_entry; field; nonzero.
Qed.

(** The cell's value with the products collected: the closed form of the
    specification with the sign of every [J_xz] factor of odd degree
    reversed. *)
Lemma ang_acc_cm_collected (p q r J_x J_y J_z J_xz L M N : R) :
  J_y <> 0 -> Delta J_x J_z J_xz <> 0 ->
  ang_acc_cm p q r J_x J_y J_z J_xz L M N
  = mkVec3
      ((- J_xz * (J_x - J_y + J_z) * p * q - (J_z * (J_z - J_y) + J_xz ^ 2) * q * r
        + J_z * L - J_xz * N) / Delta J_x J_z J_xz)
      (((J_z - J_x) * r * p + J_xz * (p ^ 2 - r ^ 2) + M) / J_y)
      ((J_xz * (J_x - J_y + J_z) * q * r + (J_x * (J_x - J_y) + J_xz ^ 2) * p * q
        - J_xz * L + J_x * N) / Delta J_x J_z J_xz).
Proof.
  intros Hy Hd.
  pose proof (det_J_b_nonzero J_x J_y J_z J_xz Hy Hd) as Hdet.
  entries. by_entry; field; nonzero.
Qed.

Lemma Delta_opp (J_x J_z J_xz : R) : Delta J_x J_z (- J_xz) = Delta J_x J_z J_xz.
Proof. unfold Delta. ring. Qed.

(** The cell agrees with the specification's closed form once the product of
    inertia enters the tensor with the opposite sign. *)
Lemma ang_acc_cm_closed_opp (p q r J_x J_y J_z J_xz L M N : R) :
  J_y <> 0 -> Delta J_x J_z J_xz <> 0 ->
  ang_acc_cm p q r J_x J_y J_z (- J_xz) L M N
  = omega_dot_closed p q r J_x J_y J_z J_xz L M N.
Proof.
  intros Hy Hd.
  rewrite ang_acc_cm_collected by (rewrite ?Delta_opp; assumption).
  unfold omega_dot_closed. rewrite Delta_opp.
  by_entry; f_equal; ring.
Qed.

(** *** Rotations *)

Lemma sin_cos_unit (x : R) : sin x * sin x + cos x * cos x = 1.
Proof. exact (sin2_cos2 x). Qed.

(** An expression equal, as a polynomial in [sin x] and [cos x], to
    [sin x ^ 2 + cos x ^ 2] is equal to one. *)
Lemma unit_circle (x e : R) : e = sin x * sin x + cos x * cos x -> e = 1.
Proof. intros ->. apply sin_cos_unit. Qed.

Lemma Rx_proper (phi : R) : proper_rotation (Rx phi).
Proof.
  entries. split; [by_entry; try ring | ]; apply (unit_circle phi); ring.
Qed.

Lemma Ry_proper (theta : R) : proper_rotation (Ry theta).
Proof.
  entries. split; [by_entry; try ring | ]; apply (unit_circle theta); ring.
Qed.

Lemma Rz_proper (psi : R) : proper_rotation (Rz psi).
Proof.
  entries. split; [by_entry; try ring | ]; apply (unit_circle psi); ring.
Qed.

Lemma C_bn_expansion (phi theta psi : R) :
  C_bn phi theta psi = C_bn_expanded phi theta psi.
Proof.
  entries. by_entry; ring.
Qed.

(** The third column of [C_bn], scaled by [G]. *)
Lemma C_bn_g_n (phi theta psi G : R) :
  mvmul (C_bn phi theta psi) (g_n G) = gravity_projection G phi theta.
Proof.
  entries. by_entry; ring.
Qed.

(** ** The translational derivative *)

(** C3: for all Euler angles and every gravity magnitude, the full matrix
    product [C_bn @ g_n] equals the closed-form three-element projection
    (-G sin theta, G sin phi cos theta, G cos phi cos theta), entry by
    entry. *)
Theorem gravity_full_matrix_eq_projection (phi theta psi G : R) :
  mvmul (C_bn phi theta psi) (g_n G) = gravity_projection G phi theta
  /\ mvmul (C_bn phi theta psi) (mkVec3 0 0 G)
     = mkVec3 (- G * sin theta) (G * sin phi * cos theta) (G * cos phi * cos theta).
Proof.
  split; apply C_bn_g_n.
Qed.

(** C5: for all Euler angles, [C_bn] is the product of the elementary
    rotation about x by phi, about y by theta and about z by psi, taken in
    that order; it is the direction-cosine matrix of the yaw-pitch-roll
    sequence; and each factor is the aerospace convention's elementary
    rotation: a proper rotation, the change of coordinates into the frame
    turned right-handedly about its axis. *)
Theorem C_bn_elementary_product (phi theta psi : R) :
  C_bn phi theta psi = mmul (mmul (Rx phi) (Ry theta)) (Rz psi)
  /\ C_bn phi theta psi = mmul (Rx phi) (mmul (Ry theta) (Rz psi))
  /\ C_bn phi theta psi = C_bn_expanded phi theta psi
  /\ (Rx phi = transpose (turn_x phi)
      /\ Ry theta = transpose (turn_y theta)
      /\ Rz psi = transpose (turn_z psi))
  /\ (proper_rotation (Rx phi)
      /\ proper_rotation (Ry theta)
      /\ proper_rotation (Rz psi)).
Proof.
  split; [reflexivity | ].
  split; [apply mmul_assoc | ].
  split; [apply C_bn_expansion | ].
  split.
  - repeat split; entries; reflexivity.
  - auto using Rx_proper, Ry_proper, Rz_proper.
Qed.

(** C1: for every velocity, angular velocity, force, mass [m <> 0], gravity
    and Euler angles, the translational derivative is F/m + C_bn (0,0,G)
    - omega x v, and its entries are
    F_x/m - G sin theta - q w + r v,
    F_y/m + G sin phi cos theta + p w - r u and
    F_z/m + G cos phi cos theta - p v + q u. *)
Theorem acc_cm_equation (u v w p q r G psi theta phi F_x F_y F_z m : R) :
  m <> 0 ->
  acc_cm u v w p q r G psi theta phi F_x F_y F_z m
  = vsub (vadd (mkVec3 (F_x / m) (F_y / m) (F_z / m))
               (mvmul (C_bn phi theta psi) (mkVec3 0 0 G)))
         (cross (mkVec3 p q r) (mkVec3 u v w))
  /\ acc_cm u v w p q r G psi theta phi F_x F_y F_z m
     = mkVec3 (F_x / m - G * sin theta - q * w + r * v)
              (F_y / m + G * sin phi * cos theta + p * w - r * u)
              (F_z / m + G * cos phi * cos theta - p * v + q * u).
Proof.
  intros Hm. split.
  - entries. by_entry; field; exact Hm.
  - entries. by_entry; field; exact Hm.
Qed.

Lemma acc_cm_equation_witness :
  acc_cm 100 0 0 0 (1 / 10) 0 (981 / 100) 0 0 0 0 0 0 1000
  = vsub (vadd (mkVec3 (0 / 1000) (0 / 1000) (0 / 1000))
               (mvmul (C_bn 0 0 0) (mkVec3 0 0 (981 / 100))))
         (cross (mkVec3 0 (1 / 10) 0) (mkVec3 100 0 0))
  /\ acc_cm 100 0 0 0 (1 / 10) 0 (981 / 100) 0 0 0 0 0 0 1000
     = mkVec3 (0 / 1000 - 981 / 100 * sin 0 - 1 / 10 * 0 + 0 * 0)
              (0 / 1000 + 981 / 100 * sin 0 * cos 0 + 0 * 0 - 0 * 100)
              (0 / 1000 + 981 / 100 * cos 0 * cos 0 - 0 * 0 + 1 / 10 * 100).
Proof.
  apply (acc_cm_equation 100 0 0 0 (1 / 10) 0 (981 / 100) 0 0 0 0 0 0 1000).
  lra.
Defined.

(** C7: with zero applied force and zero gravity, for every velocity,
    angular velocity and attitude, the translational derivative is exactly
    the rotational coupling - omega x v: (- q w + r v, p w - r u,
    - p v + q u). *)
Theorem acc_cm_pure_coupling (u v w p q r psi theta phi m : R) :
  acc_cm u v w p q r 0 psi theta phi 0 0 0 m
  = vopp (cross (omega_b p q r) (vel_b u v w))
  /\ acc_cm u v w p q r 0 psi theta phi 0 0 0 m
     = mkVec3 (- q * w + r * v) (p * w - r * u) (- p * v + q * u).
Proof.
  split; entries; by_entry; ring.
Qed.

(** The value of the cell in the scenario m = 1000, G = 9.81, level
    attitude, (u, v, w) = (100, 0, 0), (p, q, r) = (0, 0.1, 0), no force. *)
Lemma acc_cm_scenario_value :
  acc_cm 100 0 0 0 0.1 0 9.81 0 0 0 0 0 0 1000 = mkVec3 0 0 19.81.
Proof.
  rewrite acc_cm_recorded. unfold acc_cm_out.
  rewrite sin_0, cos_0. by_entry; lra.
Qed.

(** C8, as amended: in the scenario m = 1000, G = 9.81, phi = theta = psi
    = 0, (u, v, w) = (100, 0, 0), (p, q, r) = (0, 0.1, 0), F = (0, 0, 0),
    the translational derivative has first entry 0, second entry 0 and
    third entry 0 + 9.81 - 0 + 10 = 19.81. *)
Theorem acc_cm_scenario :
  c0 (acc_cm 100 0 0 0 0.1 0 9.81 0 0 0 0 0 0 1000) = 0
  /\ c1 (acc_cm 100 0 0 0 0.1 0 9.81 0 0 0 0 0 0 1000) = 0
  /\ c2 (acc_cm 100 0 0 0 0.1 0 9.81 0 0 0 0 0 0 1000) = 0 + 9.81 - 0 + 10
  /\ c2 (acc_cm 100 0 0 0 0.1 0 9.81 0 0 0 0 0 0 1000) = 19.81.
Proof.
  rewrite acc_cm_scenario_value. cbn [c0 c1 c2]. repeat split; lra.
Qed.

(** C8, as stated, fails: in that scenario the third entry of the
    translational derivative is not 100 * 0.1 = 10. *)
Lemma acc_cm_scenario_not_10 :
  ~ (c0 (acc_cm 100 0 0 0 0.1 0 9.81 0 0 0 0 0 0 1000) = 0
     /\ c1 (acc_cm 100 0 0 0 0.1 0 9.81 0 0 0 0 0 0 1000) = 0
     /\ c2 (acc_cm 100 0 0 0 0.1 0 9.81 0 0 0 0 0 0 1000) = 100 * 0.1).
Proof.
  rewrite acc_cm_scenario_value. cbn [c0 c1 c2]. intros (_ & _ & H). lra.
Qed.

(** C9: for equal roll, pitch and gravity, any two yaw angles give the same
    gravity vector in the body frame, and two evaluations of the
    translational derivative that differ only in the yaw angle are equal. *)
Theorem yaw_independence
    (u v w p q r G psi1 psi2 theta phi F_x F_y F_z m : R) :
  mvmul (C_bn phi theta psi1) (g_n G) = mvmul (C_bn phi theta psi2) (g_n G)
  /\ acc_cm u v w p q r G psi1 theta phi F_x F_y F_z m
     = acc_cm u v w p q r G psi2 theta phi F_x F_y F_z m.
Proof.
  split.
  - rewrite !C_bn_g_n. reflexivity.
  - unfold acc_cm. rewrite !C_bn_g_n. reflexivity.
Qed.

(** C10: for all Euler angles and every gravity magnitude, the gravity
    vector in the body frame has squared Euclidean norm G^2, that is
    (G sin theta)^2 + (G sin phi cos theta)^2 + (G cos phi cos theta)^2
    = G^2. *)
Theorem gravity_norm_preserved (phi theta psi G : R) :
  norm2 (mvmul (C_bn phi theta psi) (g_n G)) = G ^ 2
  /\ (G * sin theta) ^ 2 + (G * sin phi * cos theta) ^ 2
     + (G * cos phi * cos theta) ^ 2 = G ^ 2.
Proof.
  assert (E : (G * sin theta) ^ 2 + (G * sin phi * cos theta) ^ 2
              + (G * cos phi * cos theta) ^ 2 = G ^ 2).
  { transitivity
      (G ^ 2 * (sin theta * sin theta
                + cos theta * cos theta * (sin phi * sin phi + cos phi * cos phi))).
    - ring.
    - rewrite (sin_cos_unit phi), Rmult_1_r, (sin_cos_unit theta). ring. }
  split; [ | exact E].
  rewrite C_bn_g_n, <- E.
  unfold gravity_projection, norm2, dot. cbn [c0 c1 c2]. ring.
Qed.

(** ** The rotational derivative *)

(** C2 fails on the cell.  At p = 1, q = r = 0, no moment, J_x = 2,
    J_y = 1, J_z = 2, J_xz = 1 (so J_y <> 0 and Delta = 3 <> 0), forming
    [J_b] and evaluating J^-1 (M - omega x (J omega)) gives (0, 1, 0), while
    the closed form, and the result the notebook's own derivation states,
    give (0, -1, 0): the two paths do not agree. *)
Theorem ang_acc_cm_vs_closed_form :
  1 <> 0 /\ Delta 2 2 1 = 3
  /\ ang_acc_cm 1 0 0 2 1 2 1 0 0 0 = mkVec3 0 1 0
  /\ omega_dot_closed 1 0 0 2 1 2 1 0 0 0 = mkVec3 0 (-1) 0
  /\ ang_acc_cm_derived 1 0 0 2 1 2 1 0 0 0 = mkVec3 0 (-1) 0
  /\ ang_acc_cm 1 0 0 2 1 2 1 0 0 0 <> omega_dot_closed 1 0 0 2 1 2 1 0 0 0.
Proof.
  assert (Hn : ang_acc_cm_derived 1 0 0 2 1 2 1 0 0 0 = mkVec3 0 (-1) 0).
  { unfold ang_acc_cm_derived. by_entry; field. }
  assert (Hd : Delta 2 2 1 = 3) by (unfold Delta; ring).
  assert (Hc : ang_acc_cm 1 0 0 2 1 2 1 0 0 0 = mkVec3 0 1 0).
  { rewrite ang_acc_cm_collected by (rewrite ?Hd; lra).
    rewrite Hd. by_entry; field. }
  assert (Hs : omega_dot_closed 1 0 0 2 1 2 1 0 0 0 = mkVec3 0 (-1) 0).
  { unfold omega_dot_closed. rewrite Hd. by_entry; field. }
  repeat split; try assumption; try lra.
  rewrite Hc, Hs. intros H. injection H as H. lra.
Qed.

(** C6: for every angular velocity and moment and all inertia scalars with
    J_x, J_y, J_z nonzero and J_xz = 0, the rotational derivative is given by
    the decoupled Euler equations
    ([(J_y - J_z) q r + L] / J_x, [(J_z - J_x) r p + M] / J_y,
    [(J_x - J_y) p q + N] / J_z); so is the specification's closed form. *)
Theorem ang_acc_cm_euler (p q r J_x J_y J_z J_xz L M N : R) :
  J_x <> 0 -> J_y <> 0 -> J_z <> 0 -> J_xz = 0 ->
  ang_acc_cm p q r J_x J_y J_z J_xz L M N
  = mkVec3 (((J_y - J_z) * q * r + L) / J_x)
           (((J_z - J_x) * r * p + M) / J_y)
           (((J_x - J_y) * p * q + N) / J_z)
  /\ omega_dot_closed p q r J_x J_y J_z J_xz L M N
     = euler_decoupled p q r J_x J_y J_z L M N.
Proof.
  intros Hx Hy Hz ->.
  assert (Hd : Delta J_x J_z 0 <> 0).
  { unfold Delta. replace (J_x * J_z - 0 ^ 2) with (J_x * J_z) by ring.
    apply Rmult_integral_contrapositive_currified; assumption. }
  split.
  - rewrite ang_acc_cm_collected by assumption.
    unfold Delta. by_entry; field; auto.
  - unfold_closed. by_entry; field; auto.
Qed.

Lemma ang_acc_cm_euler_witness :
  ang_acc_cm 0 0 0 1000 1200 2000 0 0 100 0
  = mkVec3 (((1200 - 2000) * 0 * 0 + 0) / 1000)
           (((2000 - 1000) * 0 * 0 + 100) / 1200)
           (((1000 - 1200) * 0 * 0 + 0) / 2000)
  /\ omega_dot_closed 0 0 0 1000 1200 2000 0 0 100 0
     = euler_decoupled 0 0 0 1000 1200 2000 0 100 0.
Proof.
  apply (ang_acc_cm_euler 0 0 0 1000 1200 2000 0 0 100 0); lra.
Defined.

(** ** Failure modes *)





(** ** Further properties of the two cells *)

(** *** More on matrices *)

Lemma mvmul_mmul (A B : Mat3) (x : Vec3) :
  mvmul (mmul A B) x = mvmul A (mvmul B x).
Proof.
  destruct A as [[? ? ?] [? ? ?] [? ? ?]], B as [[? ? ?] [? ? ?] [? ? ?]],
    x as [? ? ?].
  unfold_linalg. by_entry; ring.
Qed.

Lemma mvmul_identity (x : Vec3) : mvmul identity x = x.
Proof.
  destruct x as [? ? ?]. unfold_linalg. by_entry; ring.
Qed.

Lemma transpose_mmul (A B : Mat3) :
  transpose (mmul A B) = mmul (transpose B) (transpose A).
Proof.
  destruct A as [[? ? ?] [? ? ?] [? ? ?]], B as [[? ? ?] [? ? ?] [? ? ?]].
  unfold_linalg. by_entry; ring.
Qed.

Lemma det_mmul (A B : Mat3) : det (mmul A B) = det A * det B.
Proof.
  destruct A as [[? ? ?] [? ? ?] [? ? ?]], B as [[? ? ?] [? ? ?] [? ? ?]].
  unfold_linalg. ring.
Qed.

Lemma dot_mvmul_transpose (A : Mat3) (x y : Vec3) :
  dot (mvmul A x) y = dot x (mvmul (transpose A) y).
Proof.
  destruct A as [[? ? ?] [? ? ?] [? ? ?]], x as [? ? ?], y as [? ? ?].
  unfold_linalg. ring.
Qed.

Lemma proper_rotation_mmul (A B : Mat3) :
  proper_rotation A -> proper_rotation B -> proper_rotation (mmul A B).
Proof.
  intros [HA dA] [HB dB]. split.
  - rewrite transpose_mmul, mmul_assoc, <- (mmul_assoc B), HB, mmul_identity_l.
    exact HA.
  - rewrite det_mmul, dA, dB. ring.
Qed.

(** The transpose of a proper rotation is its inverse, on both sides. *)
Lemma proper_rotation_inv (A : Mat3) :
  proper_rotation A -> transpose A = inv A /\ mmul (transpose A) A = identity.
Proof.
  intros [HA dA].
  assert (Hd : det A <> 0) by (rewrite dA; lra).
  assert (E : transpose A = inv A) by (apply inv_unique; assumption).
  split; [exact E | ]. rewrite E. apply inv_l, Hd.
Qed.

Lemma C_bn_proper (phi theta psi : R) : proper_rotation (C_bn phi theta psi).
Proof.
  unfold C_bn.
  auto using proper_rotation_mmul, Rx_proper, Ry_proper, Rz_proper.
Qed.

(** *** The attitude transform *)

(** X1: for all Euler angles [C_bn] is a proper rotation: its rows are
    orthonormal and its determinant is one. *)
Theorem C_bn_orthonormal (phi theta psi : R) :
  mmul (C_bn phi theta psi) (transpose (C_bn phi theta psi)) = identity
  /\ mmul (transpose (C_bn phi theta psi)) (C_bn phi theta psi) = identity
  /\ det (C_bn phi theta psi) = 1.
Proof.
  pose proof (C_bn_proper phi theta psi) as H.
  destruct (proper_rotation_inv _ H) as [_ Hl].
  destruct H as [Hr Hd]. auto.
Qed.

(** X2: the inverse of [C_bn] is its transpose, and taking a vector to
    body axes and back with the transpose returns the vector. *)
Theorem C_bn_round_trip (phi theta psi : R) (x : Vec3) :
  inv (C_bn phi theta psi) = transpose (C_bn phi theta psi)
  /\ mvmul (transpose (C_bn phi theta psi)) (mvmul (C_bn phi theta psi) x) = x
  /\ mvmul (C_bn phi theta psi) (mvmul (transpose (C_bn phi theta psi)) x) = x.
Proof.
  pose proof (C_bn_proper phi theta psi) as H.
  destruct (proper_rotation_inv _ H) as [E Hl].
  destruct H as [Hr _].
  split; [symmetry; exact E | ].
  split; rewrite <- mvmul_mmul, ?Hl, ?Hr; apply mvmul_identity.
Qed.

(** X3: [C_bn] preserves the scalar product of any two vectors, hence the
    length of every vector and the angle between any two. *)
Theorem C_bn_isometry (phi theta psi : R) (x y : Vec3) :
  dot (mvmul (C_bn phi theta psi) x) (mvmul (C_bn phi theta psi) y) = dot x y
  /\ norm2 (mvmul (C_bn phi theta psi) x) = norm2 x.
Proof.
  assert (E : forall a b,
             dot (mvmul (C_bn phi theta psi) a) (mvmul (C_bn phi theta psi) b)
             = dot a b).
  { intros a b. rewrite dot_mvmul_transpose.
    destruct (proper_rotation_inv _ (C_bn_proper phi theta psi)) as [_ Hl].
    rewrite <- mvmul_mmul, Hl, mvmul_identity. reflexivity. }
  split; [apply E | unfold norm2; apply E].
Qed.

(** X4: elementary rotations about one axis compose by adding their angles,
    and reversing the angle transposes the matrix. *)
Theorem elementary_rotations_add (a b : R) :
  (mmul (Rx a) (Rx b) = Rx (a + b)
   /\ mmul (Ry a) (Ry b) = Ry (a + b)
   /\ mmul (Rz a) (Rz b) = Rz (a + b))
  /\ (Rx (- a) = transpose (Rx a)
      /\ Ry (- a) = transpose (Ry a)
      /\ Rz (- a) = transpose (Rz a)).
Proof.
  split.
  - repeat split; entries; rewrite sin_plus, cos_plus; by_entry; ring.
  - repeat split; entries; rewrite sin_neg, cos_neg; by_entry; ring.
Qed.

(** An elementary rotation commutes with the cross product. *)
Lemma planar_cross (s c a1 a2 b1 b2 : R) :
  s * s + c * c = 1 ->
  (c * a1 + s * a2) * (- s * b1 + c * b2)
  - (- s * a1 + c * a2) * (c * b1 + s * b2) = a1 * b2 - a2 * b1.
Proof.
  intros H.
  transitivity ((s * s + c * c) * (a1 * b2 - a2 * b1)); [ring | ].
  rewrite H. ring.
Qed.

Lemma Rx_cross (phi : R) (a b : Vec3) :
  mvmul (Rx phi) (cross a b) = cross (mvmul (Rx phi) a) (mvmul (Rx phi) b).
Proof.
  destruct a as [a0 a1 a2], b as [b0 b1 b2]. entries.
  pose proof (planar_cross (sin phi) (cos phi) a1 a2 b1 b2 (sin_cos_unit phi)) as H.
  by_entry; try ring. rewrite <- H. ring.
Qed.

Lemma Ry_cross (theta : R) (a b : Vec3) :
  mvmul (Ry theta) (cross a b)
  = cross (mvmul (Ry theta) a) (mvmul (Ry theta) b).
Proof.
  destruct a as [a0 a1 a2], b as [b0 b1 b2]. entries.
  pose proof (planar_cross (sin theta) (cos theta) a2 a0 b2 b0
                (sin_cos_unit theta)) as H.
  by_entry; try ring. rewrite <- H. ring.
Qed.

Lemma Rz_cross (psi : R) (a b : Vec3) :
  mvmul (Rz psi) (cross a b) = cross (mvmul (Rz psi) a) (mvmul (Rz psi) b).
Proof.
  destruct a as [a0 a1 a2], b as [b0 b1 b2]. entries.
  pose proof (planar_cross (sin psi) (cos psi) a0 a1 b0 b1 (sin_cos_unit psi)) as H.
  by_entry; try ring. rewrite <- H. ring.
Qed.

(** X5: [C_bn] commutes with the cross product: resolving omega x v in
    body axes is the cross product of the resolved vectors (handedness is
    kept). *)
Theorem C_bn_cross (phi theta psi : R) (a b : Vec3) :
  mvmul (C_bn phi theta psi) (cross a b)
  = cross (mvmul (C_bn phi theta psi) a) (mvmul (C_bn phi theta psi) b).
Proof.
  unfold C_bn. rewrite !mvmul_mmul, Rz_cross, Ry_cross, Rx_cross. reflexivity.
Qed.

(** *** The translational cell *)

(** X6: the rotational coupling - omega x v does no work and exerts nothing
    along the spin axis: projected on the velocity, or on the angular
    velocity, [acc_cm] is the projection of F/m + C_bn (0,0,G) alone. *)
Theorem acc_cm_coupling_workless
    (u v w p q r G psi theta phi F_x F_y F_z m : R) :
  m <> 0 ->
  dot (vel_b u v w) (acc_cm u v w p q r G psi theta phi F_x F_y F_z m)
  = dot (vel_b u v w)
        (vadd (mkVec3 (F_x / m) (F_y / m) (F_z / m))
              (mvmul (C_bn phi theta psi) (g_n G)))
  /\ dot (omega_b p q r) (acc_cm u v w p q r G psi theta phi F_x F_y F_z m)
     = dot (omega_b p q r)
           (vadd (mkVec3 (F_x / m) (F_y / m) (F_z / m))
                 (mvmul (C_bn phi theta psi) (g_n G))).
Proof.
  intros Hm. split; entries; field; exact Hm.
Qed.

Lemma acc_cm_coupling_workless_witness :
  dot (vel_b 100 2 3) (acc_cm 100 2 3 1 2 3 10 0 0 0 5 6 7 2)
  = dot (vel_b 100 2 3)
        (vadd (mkVec3 (5 / 2) (6 / 2) (7 / 2)) (mvmul (C_bn 0 0 0) (g_n 10)))
  /\ dot (omega_b 1 2 3) (acc_cm 100 2 3 1 2 3 10 0 0 0 5 6 7 2)
     = dot (omega_b 1 2 3)
           (vadd (mkVec3 (5 / 2) (6 / 2) (7 / 2)) (mvmul (C_bn 0 0 0) (g_n 10))).
Proof.
  apply (acc_cm_coupling_workless 100 2 3 1 2 3 10 0 0 0 5 6 7 2). lra.
Defined.

(** X7: [acc_cm] is the body-axes form of Newton's law in the local-level
    frame: turned back with the transpose of [C_bn], the sum of [acc_cm] and
    the coupling omega x v is the specific force resolved in the local-level
    frame plus the gravity column (0, 0, G). *)
Theorem acc_cm_local_level
    (u v w p q r G psi theta phi F_x F_y F_z m : R) :
  m <> 0 ->
  mvmul (transpose (C_bn phi theta psi))
        (vadd (acc_cm u v w p q r G psi theta phi F_x F_y F_z m)
              (cross (omega_b p q r) (vel_b u v w)))
  = vadd (mvmul (transpose (C_bn phi theta psi))
                (mkVec3 (F_x / m) (F_y / m) (F_z / m)))
         (g_n G).
Proof.
  intros Hm.
  destruct (proper_rotation_inv _ (C_bn_proper phi theta psi)) as [_ Hl].
  rewrite <- (mvmul_identity (g_n G)).
  rewrite <- Hl, mvmul_mmul.
  unfold acc_cm.
  generalize (mvmul (C_bn phi theta psi) (g_n G)) as g.
  generalize (transpose (C_bn phi theta psi)) as T.
  intros [[? ? ?] [? ? ?] [? ? ?]] [g0 g1 g2].
  unfold F_a, omega_b, vel_b. unfold_linalg. by_entry; field; exact Hm.
Qed.

Lemma acc_cm_local_level_witness :
  mvmul (transpose (C_bn 0 0 0))
        (vadd (acc_cm 100 2 3 1 2 3 10 0 0 0 5 6 7 2)
              (cross (omega_b 1 2 3) (vel_b 100 2 3)))
  = vadd (mvmul (transpose (C_bn 0 0 0)) (mkVec3 (5 / 2) (6 / 2) (7 / 2)))
         (g_n 10).
Proof.
  apply (acc_cm_local_level 100 2 3 1 2 3 10 0 0 0 5 6 7 2). lra.
Defined.

(** *** The rotational cell *)

Lemma vadd_vsub_cancel (a b : Vec3) : vadd (vsub a b) b = a.
Proof.
  destruct a as [? ? ?], b as [? ? ?]. unfold_linalg. by_entry; ring.
Qed.

Lemma vadd_eq_vsub (a b c : Vec3) : vadd a b = c -> a = vsub c b.
Proof.
  intros <-. destruct a as [? ? ?], b as [? ? ?]. unfold_linalg. by_entry; ring.
Qed.

(** X8: for J_y <> 0 and Delta <> 0 the value of the rotational cell is the
    matrix the notebook records as the cell's output. *)
Theorem ang_acc_cm_output (p q r J_x J_y J_z J_xz L M N : R) :
  J_y <> 0 -> J_x * J_z - J_xz ^ 2 <> 0 ->
  ang_acc_cm p q r J_x J_y J_z J_xz L M N
  = ang_acc_cm_out p q r J_x J_y J_z J_xz L M N.
Proof.
  intros Hy Hd. apply ang_acc_cm_recorded; assumption.
Qed.

Lemma ang_acc_cm_output_witness :
  ang_acc_cm 1 2 3 2 1 2 1 4 5 6 = ang_acc_cm_out 1 2 3 2 1 2 1 4 5 6.
Proof.
  apply (ang_acc_cm_output 1 2 3 2 1 2 1 4 5 6); lra.
Defined.

(** X9: for J_y <> 0 and Delta <> 0 the rotational cell, with its products
    collected, is
    ([- J_xz (J_x - J_y + J_z) p q - (J_z (J_z - J_y) + J_xz^2) q r
      + J_z L - J_xz N] / Delta,
     [(J_z - J_x) r p + J_xz (p^2 - r^2) + M] / J_y,
     [J_xz (J_x - J_y + J_z) q r + (J_x (J_x - J_y) + J_xz^2) p q
      - J_xz L + J_x N] / Delta). *)
Theorem ang_acc_cm_entries (p q r J_x J_y J_z J_xz L M N : R) :
  J_y <> 0 -> J_x * J_z - J_xz ^ 2 <> 0 ->
  c0 (ang_acc_cm p q r J_x J_y J_z J_xz L M N)
  = (- J_xz * (J_x - J_y + J_z) * p * q - (J_z * (J_z - J_y) + J_xz ^ 2) * q * r
     + J_z * L - J_xz * N) / (J_x * J_z - J_xz ^ 2)
  /\ c1 (ang_acc_cm p q r J_x J_y J_z J_xz L M N)
     = ((J_z - J_x) * r * p + J_xz * (p ^ 2 - r ^ 2) + M) / J_y
  /\ c2 (ang_acc_cm p q r J_x J_y J_z J_xz L M N)
     = (J_xz * (J_x - J_y + J_z) * q * r + (J_x * (J_x - J_y) + J_xz ^ 2) * p * q
        - J_xz * L + J_x * N) / (J_x * J_z - J_xz ^ 2).
Proof.
  intros Hy Hd.
  rewrite ang_acc_cm_collected by assumption.
  cbn [c0 c1 c2]. unfold Delta. repeat split; reflexivity.
Qed.

Lemma ang_acc_cm_entries_witness :
  c0 (ang_acc_cm 1 2 3 2 1 2 1 4 5 6)
  = (- 1 * (2 - 1 + 2) * 1 * 2 - (2 * (2 - 1) + 1 ^ 2) * 2 * 3
     + 2 * 4 - 1 * 6) / (2 * 2 - 1 ^ 2)
  /\ c1 (ang_acc_cm 1 2 3 2 1 2 1 4 5 6)
     = ((2 - 2) * 3 * 1 + 1 * (1 ^ 2 - 3 ^ 2) + 5) / 1
  /\ c2 (ang_acc_cm 1 2 3 2 1 2 1 4 5 6)
     = (1 * (2 - 1 + 2) * 2 * 3 + (2 * (2 - 1) + 1 ^ 2) * 1 * 2
        - 1 * 4 + 2 * 6) / (2 * 2 - 1 ^ 2).
Proof.
  apply (ang_acc_cm_entries 1 2 3 2 1 2 1 4 5 6); lra.
Defined.

(** X10: the rotational cell is the specification's closed form with the
    product of inertia reversed: for J_y <> 0 and Delta <> 0, evaluating the
    cell at - J_xz gives the closed form at J_xz, and conversely. *)
Theorem ang_acc_cm_closed_form_reversed (p q r J_x J_y J_z J_xz L M N : R) :
  J_y <> 0 -> J_x * J_z - J_xz ^ 2 <> 0 ->
  ang_acc_cm p q r J_x J_y J_z (- J_xz) L M N
  = omega_dot_closed p q r J_x J_y J_z J_xz L M N
  /\ ang_acc_cm p q r J_x J_y J_z J_xz L M N
     = omega_dot_closed p q r J_x J_y J_z (- J_xz) L M N.
Proof.
  intros Hy Hd. split.
  - apply ang_acc_cm_closed_opp; assumption.
  - rewrite <- ang_acc_cm_closed_opp by (rewrite ?Delta_opp; assumption).
    rewrite Ropp_involutive. reflexivity.
Qed.

Lemma ang_acc_cm_closed_form_reversed_witness :
  ang_acc_cm 1 2 3 2 1 2 (- 1) 4 5 6 = omega_dot_closed 1 2 3 2 1 2 1 4 5 6
  /\ ang_acc_cm 1 2 3 2 1 2 1 4 5 6 = omega_dot_closed 1 2 3 2 1 2 (- 1) 4 5 6.
Proof.
  apply (ang_acc_cm_closed_form_reversed 1 2 3 2 1 2 1 4 5 6); lra.
Defined.

(** X11: for J_y <> 0 and Delta <> 0 the rotational cell solves Euler's
    equation J a + omega x (J omega) = M for the angular acceleration [a],
    and it is the only solution. *)
Theorem ang_acc_cm_solves_euler (p q r J_x J_y J_z J_xz L M N : R) :
  J_y <> 0 -> J_x * J_z - J_xz ^ 2 <> 0 ->
  vadd (mvmul (J_b J_x J_y J_z J_xz) (ang_acc_cm p q r J_x J_y J_z J_xz L M N))
       (cross (omega_b p q r) (mvmul (J_b J_x J_y J_z J_xz) (omega_b p q r)))
  = M_AT L M N
  /\ forall a : Vec3,
       vadd (mvmul (J_b J_x J_y J_z J_xz) a)
            (cross (omega_b p q r) (mvmul (J_b J_x J_y J_z J_xz) (omega_b p q r)))
       = M_AT L M N ->
       a = ang_acc_cm p q r J_x J_y J_z J_xz L M N.
Proof.
  intros Hy Hd.
  pose proof (det_J_b_nonzero J_x J_y J_z J_xz Hy Hd) as Hdet.
  unfold ang_acc_cm. cbv zeta. split.
  - rewrite <- mvmul_mmul, (inv_r _ Hdet), mvmul_identity.
    apply vadd_vsub_cancel.
  - intros a Ha. apply vadd_eq_vsub in Ha. rewrite <- Ha.
    rewrite <- mvmul_mmul, (inv_l _ Hdet), mvmul_identity. reflexivity.
Qed.

Lemma ang_acc_cm_solves_euler_witness :
  vadd (mvmul (J_b 2 1 2 1) (ang_acc_cm 1 2 3 2 1 2 1 4 5 6))
       (cross (omega_b 1 2 3) (mvmul (J_b 2 1 2 1) (omega_b 1 2 3)))
  = M_AT 4 5 6
  /\ forall a : Vec3,
       vadd (mvmul (J_b 2 1 2 1) a)
            (cross (omega_b 1 2 3) (mvmul (J_b 2 1 2 1) (omega_b 1 2 3)))
       = M_AT 4 5 6 ->
       a = ang_acc_cm 1 2 3 2 1 2 1 4 5 6.
Proof.
  apply (ang_acc_cm_solves_euler 1 2 3 2 1 2 1 4 5 6); lra.
Defined.

(** X12: the gyroscopic term omega x (J omega) does no work and does not
    change the length of the angular momentum: for J_y <> 0 and Delta <> 0,
    omega . (J a) = omega . M and (J omega) . (J a) = (J omega) . M for the
    angular acceleration [a] of the cell. *)
Theorem ang_acc_cm_gyroscopic_workless (p q r J_x J_y J_z J_xz L M N : R) :
  J_y <> 0 -> J_x * J_z - J_xz ^ 2 <> 0 ->
  dot (omega_b p q r)
      (mvmul (J_b J_x J_y J_z J_xz) (ang_acc_cm p q r J_x J_y J_z J_xz L M N))
  = dot (omega_b p q r) (M_AT L M N)
  /\ dot (mvmul (J_b J_x J_y J_z J_xz) (omega_b p q r))
         (mvmul (J_b J_x J_y J_z J_xz) (ang_acc_cm p q r J_x J_y J_z J_xz L M N))
     = dot (mvmul (J_b J_x J_y J_z J_xz) (omega_b p q r)) (M_AT L M N).
Proof.
  intros Hy Hd.
  pose proof (det_J_b_nonzero J_x J_y J_z J_xz Hy Hd) as Hdet.
  unfold ang_acc_cm. cbv zeta.
  rewrite <- mvmul_mmul, (inv_r _ Hdet), mvmul_identity.
  clear. split; entries; ring.
Qed.

Lemma ang_acc_cm_gyroscopic_workless_witness :
  dot (omega_b 1 2 3) (mvmul (J_b 2 1 2 1) (ang_acc_cm 1 2 3 2 1 2 1 4 5 6))
  = dot (omega_b 1 2 3) (M_AT 4 5 6)
  /\ dot (mvmul (J_b 2 1 2 1) (omega_b 1 2 3))
         (mvmul (J_b 2 1 2 1) (ang_acc_cm 1 2 3 2 1 2 1 4 5 6))
     = dot (mvmul (J_b 2 1 2 1) (omega_b 1 2 3)) (M_AT 4 5 6).
Proof.
  apply (ang_acc_cm_gyroscopic_workless 1 2 3 2 1 2 1 4 5 6); lra.
Defined.

(** X13: the inertia tensor [J_b] is symmetric with determinant
    J_y (J_x J_z - J_xz^2); for J_y <> 0 and Delta <> 0 its inverse is
    ((J_z, 0, - J_xz) / Delta, (0, 1 / J_y, 0), (- J_xz, 0, J_x) / Delta),
    which is symmetric and inverts [J_b] on both sides. *)
Theorem J_b_inverse (J_x J_y J_z J_xz : R) :
  J_y <> 0 -> J_x * J_z - J_xz ^ 2 <> 0 ->
  transpose (J_b J_x J_y J_z J_xz) = J_b J_x J_y J_z J_xz
  /\ det (J_b J_x J_y J_z J_xz) = J_y * (J_x * J_z - J_xz ^ 2)
  /\ inv (J_b J_x J_y J_z J_xz)
     = mkMat3
         (mkVec3 (J_z / (J_x * J_z - J_xz ^ 2)) 0 (- J_xz / (J_x * J_z - J_xz ^ 2)))
         (mkVec3 0 (1 / J_y) 0)
         (mkVec3 (- J_xz / (J_x * J_z - J_xz ^ 2)) 0 (J_x / (J_x * J_z - J_xz ^ 2)))
  /\ transpose (inv (J_b J_x J_y J_z J_xz)) = inv (J_b J_x J_y J_z J_xz)
  /\ mmul (J_b J_x J_y J_z J_xz) (inv (J_b J_x J_y J_z J_xz)) = identity
  /\ mmul (inv (J_b J_x J_y J_z J_xz)) (J_b J_x J_y J_z J_xz) = identity.
Proof.
  intros Hy Hd.
  pose proof (det_J_b_nonzero J_x J_y J_z J_xz Hy Hd) as Hdet.
  split; [reflexivity | ].
  split; [apply det_J_b | ].
  split; [apply inv_J_b; assumption | ].
  split; [rewrite inv_J_b by assumption; reflexivity | ].
  split; [apply inv_r | apply inv_l]; exact Hdet.
Qed.

Lemma J_b_inverse_witness :
  transpose (J_b 2 1 2 1) = J_b 2 1 2 1
  /\ det (J_b 2 1 2 1) = 1 * (2 * 2 - 1 ^ 2)
  /\ inv (J_b 2 1 2 1)
     = mkMat3
         (mkVec3 (2 / (2 * 2 - 1 ^ 2)) 0 (- 1 / (2 * 2 - 1 ^ 2)))
         (mkVec3 0 (1 / 1) 0)
         (mkVec3 (- 1 / (2 * 2 - 1 ^ 2)) 0 (2 / (2 * 2 - 1 ^ 2)))
  /\ transpose (inv (J_b 2 1 2 1)) = inv (J_b 2 1 2 1)
  /\ mmul (J_b 2 1 2 1) (inv (J_b 2 1 2 1)) = identity
  /\ mmul (inv (J_b 2 1 2 1)) (J_b 2 1 2 1) = identity.
Proof.
  apply (J_b_inverse 2 1 2 1); lra.
Defined.

(** X14: the pitch axis is a principal axis whatever J_xz is: for J_y <> 0
    and Delta <> 0, a body that only pitches (p = r = 0) under a pure
    pitching moment (L = N = 0) gets the angular acceleration
    (0, M / J_y, 0); without moment it keeps spinning steadily. *)
Theorem ang_acc_cm_pure_pitch (q J_x J_y J_z J_xz M : R) :
  J_y <> 0 -> J_x * J_z - J_xz ^ 2 <> 0 ->
  ang_acc_cm 0 q 0 J_x J_y J_z J_xz 0 M 0 = mkVec3 0 (M / J_y) 0
  /\ ang_acc_cm 0 q 0 J_x J_y J_z J_xz 0 0 0 = mkVec3 0 0 0.
Proof.
  intros Hy Hd.
  rewrite !ang_acc_cm_collected by assumption.
  unfold Delta. split; by_entry; field; assumption.
Qed.

Lemma ang_acc_cm_pure_pitch_witness :
  ang_acc_cm 0 3 0 2 1 2 1 0 5 0 = mkVec3 0 (5 / 1) 0
  /\ ang_acc_cm 0 3 0 2 1 2 1 0 0 0 = mkVec3 0 0 0.
Proof.
  apply (ang_acc_cm_pure_pitch 3 2 1 2 1 5); lra.
Defined.

(** X15: the rotational cell is affine in the moment: for J_y <> 0 and
    Delta <> 0, adding a moment (L', M', N') adds J^-1 (L', M', N'), the
    value of the cell at rest under that moment alone, namely
    ((J_z L' - J_xz N') / Delta, M' / J_y, (J_x N' - J_xz L') / Delta). *)
Theorem ang_acc_cm_moment_superposition
    (p q r J_x J_y J_z J_xz L M N L' M' N' : R) :
  J_y <> 0 -> J_x * J_z - J_xz ^ 2 <> 0 ->
  ang_acc_cm p q r J_x J_y J_z J_xz (L + L') (M + M') (N + N')
  = vadd (ang_acc_cm p q r J_x J_y J_z J_xz L M N)
         (ang_acc_cm 0 0 0 J_x J_y J_z J_xz L' M' N')
  /\ ang_acc_cm 0 0 0 J_x J_y J_z J_xz L' M' N'
     = mkVec3 ((J_z * L' - J_xz * N') / (J_x * J_z - J_xz ^ 2))
              (M' / J_y)
              ((J_x * N' - J_xz * L') / (J_x * J_z - J_xz ^ 2)).
Proof.
  intros Hy Hd.
  rewrite !ang_acc_cm_collected by assumption.
  unfold Delta, vadd. cbn [c0 c1 c2].
  split; by_entry; field; assumption.
Qed.

Lemma ang_acc_cm_moment_superposition_witness :
  ang_acc_cm 1 2 3 2 1 2 1 (4 + 7) (5 + 8) (6 + 9)
  = vadd (ang_acc_cm 1 2 3 2 1 2 1 4 5 6) (ang_acc_cm 0 0 0 2 1 2 1 7 8 9)
  /\ ang_acc_cm 0 0 0 2 1 2 1 7 8 9
     = mkVec3 ((2 * 7 - 1 * 9) / (2 * 2 - 1 ^ 2))
              (8 / 1)
              ((2 * 9 - 1 * 7) / (2 * 2 - 1 ^ 2)).
Proof.
  apply (ang_acc_cm_moment_superposition 1 2 3 2 1 2 1 4 5 6 7 8 9); lra.
Defined.

Lemma Rdiv_eq_iff (a b d : R) : d <> 0 -> (a / d = b / d <-> a = b).
Proof.
  intros Hd. split; [ | intros ->; reflexivity].
  intros H. apply (Rmult_eq_reg_r (/ d)); [exact H | ].
  apply Rinv_neq_0_compat, Hd.
Qed.

Lemma Vec3_eq_iff (a0 a1 a2 b0 b1 b2 : R) :
  mkVec3 a0 a1 a2 = mkVec3 b0 b1 b2 <-> a0 = b0 /\ a1 = b1 /\ a2 = b2.
Proof.
  split.
  - intros H. injection H as H0 H1 H2. auto.
  - intros (-> & -> & ->). reflexivity.
Qed.

(** X16: for J_y <> 0 and Delta <> 0 the rotational cell agrees with the
    specification's closed form exactly when every term of odd degree in
    J_xz vanishes: J_xz ((J_x - J_y + J_z) p q + N) = 0,
    J_xz (p^2 - r^2) = 0 and J_xz ((J_x - J_y + J_z) q r - L) = 0. *)
Theorem ang_acc_cm_agrees_iff (p q r J_x J_y J_z J_xz L M N : R) :
  J_y <> 0 -> J_x * J_z - J_xz ^ 2 <> 0 ->
  ang_acc_cm p q r J_x J_y J_z J_xz L M N
  = omega_dot_closed p q r J_x J_y J_z J_xz L M N
  <-> J_xz * ((J_x - J_y + J_z) * p * q + N) = 0
      /\ J_xz * (p ^ 2 - r ^ 2) = 0
      /\ J_xz * ((J_x - J_y + J_z) * q * r - L) = 0.
Proof.
  intros Hy Hd.
  rewrite ang_acc_cm_collected by assumption.
  unfold omega_dot_closed, Delta.
  rewrite Vec3_eq_iff, !Rdiv_eq_iff by assumption.
  split; intros (H0 & H1 & H2); repeat split; lra.
Qed.

Lemma ang_acc_cm_agrees_iff_witness :
  ang_acc_cm 1 2 3 2 1 2 1 4 5 6 = omega_dot_closed 1 2 3 2 1 2 1 4 5 6
  <-> 1 * ((2 - 1 + 2) * 1 * 2 + 6) = 0
      /\ 1 * (1 ^ 2 - 3 ^ 2) = 0
      /\ 1 * ((2 - 1 + 2) * 2 * 3 - 4) = 0.
Proof.
  apply (ang_acc_cm_agrees_iff 1 2 3 2 1 2 1 4 5 6); lra.
Defined.

(** X17: for m <> 0 the translational derivative vanishes exactly when the
    applied force balances gravity and the rotational coupling:
    F = m (omega x v - C_bn (0,0,G)). *)
Theorem acc_cm_equilibrium (u v w p q r G psi theta phi F_x F_y F_z m : R) :
  m <> 0 ->
  acc_cm u v w p q r G psi theta phi F_x F_y F_z m = mkVec3 0 0 0
  <-> F_a F_x F_y F_z
      = vscale m (vsub (cross (omega_b p q r) (vel_b u v w))
                       (mvmul (C_bn phi theta psi) (g_n G))).
Proof.
  intros Hm.
  rewrite acc_cm_recorded, C_bn_g_n.
  unfold acc_cm_out, gravity_projection, F_a, omega_b, vel_b.
  unfold_linalg. rewrite !Vec3_eq_iff.
  split; intros (H0 & H1 & H2); repeat split.
  - replace F_x with (m * (F_x / m)) by (field; exact Hm). f_equal. lra.
  - replace F_y with (m * (F_y / m)) by (field; exact Hm). f_equal. lra.
  - replace F_z with (m * (F_z / m)) by (field; exact Hm). f_equal. lra.
  - rewrite H0. field. exact Hm.
  - rewrite H1. field. exact Hm.
  - rewrite H2. field. exact Hm.
Qed.

Lemma acc_cm_equilibrium_witness :
  acc_cm 100 2 3 1 2 3 10 0 0 0 5 6 7 2 = mkVec3 0 0 0
  <-> F_a 5 6 7
      = vscale 2 (vsub (cross (omega_b 1 2 3) (vel_b 100 2 3))
                       (mvmul (C_bn 0 0 0) (g_n 10))).
Proof.
  apply (acc_cm_equilibrium 100 2 3 1 2 3 10 0 0 0 5 6 7 2). lra.
Defined.
